(** * Admin "Manage Users" page (web/src/app/admin/users/page.tsx)

    A shallow embedding of the page's client-side logic: the three SWR
    subscriptions of [UsersTables], the draft/committed search query of
    [SearchableTables], and the invite workflow of [AddUserButton]
    (first-invite confirmation, bulk-add modal, success and failure
    handlers), followed by the properties the specification states. *)

From Stdlib Require Import String Ascii List Bool.
From stdpp Require Import gmap strings list fin_maps.
Import ListNotations.

Local Open Scope string_scope.
Local Open Scope list_scope.
Local Set Warnings "-register-all".

(** ** Data model *)

(** [InvitedUserSnapshot] of lib/types: a record holding an email. *)
Record InvitedUserSnapshot := { email : string }.

(** An element of a fetched array.  The page fetches arrays of invited or
    pending users and an array of domain strings; the type argument of
    [useSWR<T>] is erased at run time, so the cache holds arrays and hands
    them over unchecked. *)
Inductive Item :=
| User (u : InvitedUserSnapshot)
| Domain (d : string).

(** The error thrown by the fetcher: the page only reads [error?.info?.detail]. *)
Record ErrorInfo := { detail : option string }.
Record FetchError := { info : option ErrorInfo }.

(** A key held by the cache.  The invalidation predicate of [onSuccess]
    tests [typeof key === "string"], so keys that are not strings (arrays,
    objects) are kept apart, by their serialisation. *)
Inductive Key :=
| KString (s : string)
| KOther (serialised : string).

#[global] Instance Key_eq_dec : EqDecision Key.
Proof. solve_decision. Defined.

#[global] Instance Key_countable : Countable Key.
Proof.
  refine (inj_countable'
            (fun k => match k with KString s => inl s | KOther s => inr s end)
            (fun x => match x with inl s => KString s | inr s => KOther s end) _).
  by intros [].
Defined.

(** One cache entry: [{data, error}] of the last fetch and whether a
    request is in flight.  [None] is JavaScript's [undefined]. *)
Record Entry := {
  data : option (list Item);
  error : option FetchError;
  isValidating : bool;
}.

(** [isLoading]: a request is in flight and no data has been loaded yet. *)
Definition isLoading (e : Entry) : bool :=
  isValidating e && negb (bool_decide (is_Some (data e))).

Definition set_isValidating (b : bool) (e : Entry) : Entry :=
  {| data := data e; error := error e; isValidating := b |}.

(** What [useSWR] returns to a component. *)
Record SWRResponse := {
  r_data : option (list Item);
  r_error : option FetchError;
  r_isLoading : bool;
}.

(** Modelled from the spec: the [useSWR] hook of the swr package, which is
    not part of the page.  [get(key)] yields the entry of a held key; a
    [null] key is never registered and its response is permanently
    inactive: no data, no error, not loading. *)
Definition useSWR (key : option Key) (cache : gmap Key Entry) : SWRResponse :=
  match key ≫= (cache !!.) with
  | Some e => {| r_data := data e; r_error := error e; r_isLoading := isLoading e |}
  | None => {| r_data := None; r_error := None; r_isLoading := false |}
  end.

Inductive PopupType := success | error_popup.
Record PopupSpec := { message : string; type : PopupType }.

(** The state the page's components hold between renders: the shared
    cache with the log of the requests issued so far, the two [useState]
    cells of [SearchableTables], the two of [AddUserButton], and the
    single-slot popup of [usePopup]. *)
Record State := {
  cache : gmap Key Entry;
  requests : list Key;
  query : string;
  q : string;
  modal : bool;
  showConfirmation : bool;
  popup : option PopupSpec;
}.

(** ** The body of a failed response *)

(** A parsed JSON value.  A number is carried by the text JavaScript
    prints for it, which is all the page does with one. *)
Inductive JSON :=
| JNull
| JBool (b : bool)
| JNumber (printed : string)
| JString (s : string)
| JArray (items : list JSON)
| JObject (fields : list (string * JSON)).

(** The outcome of evaluating an expression that may throw. *)
Inductive Outcome (A : Type) :=
| Returns (a : A)
| Throws.
Arguments Returns {A} a.
Arguments Throws {A}.

(** Property lookup in a parsed object: of two members with the same
    name, [JSON.parse] keeps the later one. *)
Fixpoint get_field (name : string) (fields : list (string * JSON)) : option JSON :=
  match fields with
  | [] => None
  | (k, v) :: rest =>
      match get_field name rest with
      | Some later => Some later
      | None => if String.eqb k name then Some v else None
      end
  end.

(** Whether a parsed object has a member of that name. *)
Definition has_member (name : string) (fields : list (string * JSON)) : bool :=
  existsb (fun kv => String.eqb (fst kv) name) fields.

(** The elements of an array printed from left to right, as [join] does:
    the first element that throws ends the printing. *)
Definition print_elements (print : JSON -> Outcome string) :
    list JSON -> Outcome (list string) :=
  fix go (items : list JSON) : Outcome (list string) :=
    match items with
    | [] => Returns []
    | x :: rest =>
        match print x with
        | Throws => Throws
        | Returns s =>
            match go rest with
            | Throws => Throws
            | Returns ss => Returns (s :: ss)
            end
        end
    end.

(** [`${v}`] for a parsed value: JavaScript's ToString.  An array prints
    its elements separated by commas, [null] elements as nothing.  An
    object is printed by its [toString] method: a parsed object inherits
    the one that answers [[object Object]], unless it has a member named
    [toString] of its own, which, being parsed data, is not callable; the
    fallback [valueOf] yields no primitive either, and the conversion
    throws a TypeError. *)
Fixpoint ToString (v : JSON) : Outcome string :=
  match v with
  | JNull => Returns "null"
  | JBool true => Returns "true"
  | JBool false => Returns "false"
  | JNumber printed => Returns printed
  | JString s => Returns s
  | JArray items =>
      match print_elements
              (fun x => match x with JNull => Returns "" | _ => ToString x end)
              items with
      | Returns printed => Returns (String.concat "," printed)
      | Throws => Throws
      end
  | JObject fields =>
      match get_field "toString" fields with
      | Some _ => Throws
      | None => Returns "[object Object]"
      end
  end.

(** [`${v}`] where [v] may be [undefined]. *)
Definition template (v : option JSON) : Outcome string :=
  match v with
  | None => Returns "undefined"
  | Some j => ToString j
  end.

(** The parsed values whose printing throws: an object with a member
    named [toString], or an array that holds such a value. *)
Fixpoint throws_on_print (v : JSON) : bool :=
  match v with
  | JObject fields => has_member "toString" fields
  | JArray items => existsb throws_on_print items
  | _ => false
  end.

(** [(await res.json()).detail].  The body is [None] when it is not JSON
    ([res.json()] rejects).  Reading a property of [null] throws; a
    primitive or an array has no [detail] property. *)
Definition json_detail (body : option JSON) : Outcome (option JSON) :=
  match body with
  | None => Throws
  | Some JNull => Throws
  | Some (JObject fields) => Returns (get_field "detail" fields)
  | Some _ => Returns None
  end.

(** ** State updates *)

Definition setModal (b : bool) (st : State) : State :=
  {| cache := cache st; requests := requests st; query := query st; q := q st;
     modal := b; showConfirmation := showConfirmation st; popup := popup st |}.

Definition setShowConfirmation (b : bool) (st : State) : State :=
  {| cache := cache st; requests := requests st; query := query st; q := q st;
     modal := modal st; showConfirmation := b; popup := popup st |}.

(** [usePopup] holds a single popup: a new one replaces the previous one. *)
Definition setPopup (spec : PopupSpec) (st : State) : State :=
  {| cache := cache st; requests := requests st; query := query st; q := q st;
     modal := modal st; showConfirmation := showConfirmation st; popup := Some spec |}.

Definition setQuery (s : string) (st : State) : State :=
  {| cache := cache st; requests := requests st; query := s; q := q st;
     modal := modal st; showConfirmation := showConfirmation st; popup := popup st |}.

Definition setQ (s : string) (st : State) : State :=
  {| cache := cache st; requests := requests st; query := query st; q := s;
     modal := modal st; showConfirmation := showConfirmation st; popup := popup st |}.

Definition setCache (c : gmap Key Entry) (st : State) : State :=
  {| cache := c; requests := requests st; query := query st; q := q st;
     modal := modal st; showConfirmation := showConfirmation st; popup := popup st |}.

(** Issuing requests appends them to the log. *)
Definition issue (keys : list Key) (st : State) : State :=
  {| cache := cache st; requests := requests st ++ keys; query := query st; q := q st;
     modal := modal st; showConfirmation := showConfirmation st; popup := popup st |}.

(** ** The cache operations *)

(** The held keys a filter matches. *)
Definition matched_keys (filter : Key -> bool) (c : gmap Key Entry) : list Key :=
  List.filter filter (map_to_list c).*1.

(** Modelled from the spec: [mutate(filter)] of the swr package, called
    with a key filter and no data.  It issues a background refetch for
    every currently held key the filter matches, and leaves the data and
    error on display until the new response arrives. *)
Definition mutate (filter : Key -> bool) (st : State) : State :=
  issue (matched_keys filter (cache st))
    (setCache
       (map_imap (fun k e => Some (if filter k then set_isValidating true e else e)) (cache st))
       st).

(** Modelled from the spec: a hook called with a key not yet held registers
    the key and issues its first request; a [null] key registers nothing. *)
Definition subscribe (key : option Key) (st : State) : State :=
  match key with
  | None => st
  | Some k =>
      match cache st !! k with
      | Some _ => st
      | None =>
          issue [k]
            (setCache
               (<[k := {| data := None; error := None; isValidating := true |}]> (cache st))
               st)
      end
  end.

(** Modelled from the spec: the response to a request for a held key
    arrives.  Success replaces the data and clears the error; failure
    records the error and keeps the stale data. *)
Definition fetch_resolved (k : Key) (d : list Item) (st : State) : State :=
  setCache
    (alter (fun _ => {| data := Some d; error := None; isValidating := false |}) k (cache st))
    st.

Definition fetch_rejected (k : Key) (err : FetchError) (st : State) : State :=
  setCache
    (alter (fun e => {| data := data e; error := Some err; isValidating := false |}) k (cache st))
    st.

(** ** What the components render *)

(** The three tables.  Their callback props ([setPopup], the bound
    [mutate] of an entry) carry no data and are left out. *)
Inductive Table :=
| SignedUpUserTable (invitedUsers : list Item) (q : string)
| InvitedUserTable (users : list Item) (error : option FetchError)
    (isLoading : bool) (q : string)
| PendingUsersTable (users : list Item) (error : option FetchError)
    (isLoading : bool) (q : string).

Record TabsTrigger := { trigger_value : string; trigger_label : string }.

Record TabsContent := {
  content_value : string;
  content_title : string;
  content_table : Table;
}.

Inductive Element :=
| ThreeDotsLoader
| ErrorCallout (errorTitle : string) (errorMsg : option string)
| Tabs (defaultValue : string) (triggers : list TabsTrigger)
    (contents : list TabsContent).

(** The overlays [AddUserButton] renders next to its button. *)
Inductive Overlay :=
| ConfirmEntityModal
| BulkAddModal.

(** What the page reacts to: the user's actions, the outcome of a bulk-add
    submission, and the responses of the server. *)
Inductive Event :=
| Keystroke (s : string)
| Search
| InviteClick
| ConfirmFirstInvite
| DismissConfirmation
| ModalOutsideClick
| SubmitSuccess
| SubmitFailure (body : option JSON)
| FetchResolved (k : Key) (d : list Item)
| FetchRejected (k : Key) (err : FetchError).

Section Page.

(** The deployment flag of lib/constants. *)
Variable NEXT_PUBLIC_CLOUD_ENABLED : bool.

(** *** UsersTables *)

Definition UsersTables_invited_key : option Key :=
  Some (KString "/api/manage/users/invited").

Definition UsersTables_domains_key : option Key :=
  Some (KString "/api/manage/admin/valid-domains").

Definition UsersTables_pending_key : option Key :=
  if NEXT_PUBLIC_CLOUD_ENABLED then Some (KString "/api/tenants/users/pending")
  else None.

Definition UsersTables (q : string) (cache : gmap Key Entry) : Element :=
  let invited := useSWR UsersTables_invited_key cache in
  let domains := useSWR UsersTables_domains_key cache in
  let pending := useSWR UsersTables_pending_key cache in
  match r_data domains with
  | None => ThreeDotsLoader
  | Some validDomains =>
      match r_error domains with
      | Some domainsError =>
          ErrorCallout "Error loading valid domains" (info domainsError ≫= detail)
      | None =>
          Tabs "current"
            ([ {| trigger_value := "current"; trigger_label := "Current Users" |};
               {| trigger_value := "invited"; trigger_label := "Invited Users" |} ]
             ++ (if NEXT_PUBLIC_CLOUD_ENABLED
                 then [ {| trigger_value := "pending";
                           trigger_label := "Pending Users" |} ]
                 else []))
            ([ {| content_value := "current"; content_title := "Current Users";
                  content_table :=
                    SignedUpUserTable (default [] (r_data invited)) q |};
               {| content_value := "invited"; content_title := "Invited Users";
                  content_table :=
                    InvitedUserTable (default [] (r_data invited))
                      (r_error invited) (r_isLoading invited) q |} ]
             ++ (if NEXT_PUBLIC_CLOUD_ENABLED
                 then [ {| content_value := "pending";
                           content_title := "Pending Users";
                           content_table :=
                             PendingUsersTable (default [] (r_data pending))
                               (r_error pending) (r_isLoading pending) q |} ]
                 else []))
      end
  end.

(** *** AddUserButton *)

Definition AddUserButton_invited_key : option Key :=
  Some (KString "/api/manage/users/invited").

(** The [invitedUsers] the button reads on a render. *)
Definition AddUserButton_invitedUsers (cache : gmap Key Entry) : option (list Item) :=
  r_data (useSWR AddUserButton_invited_key cache).

(** The filter [onSuccess] hands to [mutate]. *)
Definition onSuccess_filter (key : Key) : bool :=
  match key with
  | KString s => String.prefix "/api/manage/users" s
  | KOther _ => false
  end.

Definition onSuccess (st : State) : State :=
  setPopup {| message := "Users invited!"; type := success |}
    (setModal false (mutate onSuccess_filter st)).

(** [onFailure] is asynchronous: when reading the body throws, the
    promise rejects and nothing after the [await] runs; when building the
    message throws, [setPopup] is not reached either. *)
Definition onFailure (body : option JSON) (st : State) : State :=
  match json_detail body with
  | Throws => st
  | Returns error =>
      match template error with
      | Throws => st
      | Returns shown =>
          setPopup {| message := "Failed to invite users - " ++ shown;
                      type := error_popup |} st
      end
  end.

(** The condition of [handleInviteClick]: not cloud, and an array that
    is there (an array is truthy, [undefined] is not) and empty. *)
Definition InviteFirstTimeGate (invitedUsers : option (list Item)) : bool :=
  negb NEXT_PUBLIC_CLOUD_ENABLED
  && match invitedUsers with
     | None => false
     | Some l => Nat.eqb (List.length l) 0
     end.

Definition handleInviteClick (st : State) : State :=
  if InviteFirstTimeGate (AddUserButton_invitedUsers (cache st))
  then setShowConfirmation true st
  else setModal true st.

Definition handleConfirmFirstInvite (st : State) : State :=
  setModal true (setShowConfirmation false st).

Definition AddUserButton (st : State) : list Overlay :=
  (if showConfirmation st then [ConfirmEntityModal] else [])
  ++ (if modal st then [BulkAddModal] else []).

(** *** SearchableTables *)

(** The tables below the search bar are rendered from the committed [q]. *)
Definition SearchableTables (st : State) : list Overlay * Element :=
  (AddUserButton st, UsersTables (q st) (cache st)).

(** *** The page as a transition system *)

Definition step (st : State) (ev : Event) : State :=
  match ev with
  | Keystroke s => setQuery s st
  | Search => setQ (query st) st
  | InviteClick => handleInviteClick st
  | ConfirmFirstInvite => handleConfirmFirstInvite st
  | DismissConfirmation => setShowConfirmation false st
  | ModalOutsideClick => setModal false st
  | SubmitSuccess => onSuccess st
  | SubmitFailure body => onFailure body st
  | FetchResolved k d => fetch_resolved k d st
  | FetchRejected k err => fetch_rejected k err st
  end.

Definition run (st : State) (evs : list Event) : State :=
  List.fold_left step evs st.

(** The first render over a cache that may already hold entries: empty
    search cells, nothing open, no popup, and the keys of the hooks
    subscribed in render order. *)
Definition mount (cache0 : gmap Key Entry) : State :=
  List.fold_left (fun st key => subscribe key st)
    [ AddUserButton_invited_key; UsersTables_invited_key;
      UsersTables_domains_key; UsersTables_pending_key ]
    {| cache := cache0; requests := []; query := ""; q := "";
       modal := false; showConfirmation := false; popup := None |}.

End Page.

(** ** Observations used in the statements *)

(** The requests a transition from [st] to [st'] issues: what it appends
    to the log. *)
Definition issued (st st' : State) : list Key :=
  drop (List.length (requests st)) (requests st').

(** The tables an element shows. *)
Definition element_tables (e : Element) : list Table :=
  match e with
  | Tabs _ _ contents => List.map content_table contents
  | _ => []
  end.

(** The tab values an element offers, as triggers or as panels. *)
Definition element_tab_values (e : Element) : list string :=
  match e with
  | Tabs _ triggers contents =>
      List.map trigger_value triggers ++ List.map content_value contents
  | _ => []
  end.

Definition table_q (t : Table) : string :=
  match t with
  | SignedUpUserTable _ q => q
  | InvitedUserTable _ _ _ q => q
  | PendingUsersTable _ _ _ q => q
  end.

Definition is_PendingUsersTable (t : Table) : bool :=
  match t with
  | PendingUsersTable _ _ _ _ => true
  | _ => false
  end.

Definition is_Search (ev : Event) : bool :=
  match ev with
  | Search => true
  | _ => false
  end.

(** The invited list a table is handed, if it takes one. *)
Definition table_invited (t : Table) : option (list Item) :=
  match t with
  | SignedUpUserTable invitedUsers _ => Some invitedUsers
  | InvitedUserTable users _ _ _ => Some users
  | PendingUsersTable _ _ _ _ => None
  end.

(** The panels behind the gate, in terms of the responses of the hooks. *)
Definition tab_contents (cloud : bool) (q : string) (c : gmap Key Entry) : list TabsContent :=
  let invited := useSWR (Some (KString "/api/manage/users/invited")) c in
  let pending := useSWR (UsersTables_pending_key cloud) c in
  [ {| content_value := "current"; content_title := "Current Users";
       content_table := SignedUpUserTable (default [] (r_data invited)) q |};
    {| content_value := "invited"; content_title := "Invited Users";
       content_table :=
         InvitedUserTable (default [] (r_data invited)) (r_error invited)
           (r_isLoading invited) q |} ]
  ++ (if cloud
      then [ {| content_value := "pending"; content_title := "Pending Users";
                content_table :=
                  PendingUsersTable (default [] (r_data pending))
                    (r_error pending) (r_isLoading pending) q |} ]
      else []).

(** The draft the last keystroke of a trace leaves, if the trace has one. *)
Fixpoint last_keystroke (evs : list Event) : option string :=
  match evs with
  | [] => None
  | ev :: rest =>
      match last_keystroke rest with
      | Some s => Some s
      | None => match ev with Keystroke s => Some s | _ => None end
      end
  end.

(** The events that are responses of the server. *)
Definition is_fetch_response (ev : Event) : bool :=
  match ev with
  | FetchResolved _ _ | FetchRejected _ _ => true
  | _ => false
  end.

Definition is_SubmitSuccess (ev : Event) : bool :=
  match ev with
  | SubmitSuccess => true
  | _ => false
  end.

(** The two clicks whose handlers set a dialog open. *)
Definition opens_dialog (ev : Event) : bool :=
  match ev with
  | InviteClick | ConfirmFirstInvite => true
  | _ => false
  end.

(** An object that prints as [[object Object]]: it has no member named
    [toString]. *)
Definition is_plain_object (v : JSON) : bool :=
  match v with
  | JObject fields => negb (has_member "toString" fields)
  | _ => false
  end.

(** The failure bodies [onFailure] cannot report: a body that is not
    JSON, the body [null], and an object whose [detail] throws when
    printed. *)
Definition unreportable (body : option JSON) : bool :=
  match body with
  | None => true
  | Some JNull => true
  | Some (JObject fields) =>
      match get_field "detail" fields with
      | Some d => throws_on_print d
      | None => false
      end
  | Some _ => false
  end.

(** The keys [UsersTables] subscribes to. *)
Definition UsersTables_keys (cloud : bool) : list Key :=
  omap id [UsersTables_invited_key; UsersTables_domains_key;
           UsersTables_pending_key cloud].

(** ** Lemmas on the cache operations *)

Section CacheLemmas.

Implicit Types (st : State) (k : Key) (c : gmap Key Entry).

Lemma useSWR_data k c : r_data (useSWR (Some k) c) = c !! k ≫= data.
Proof. unfold useSWR. simpl. by destruct (c !! k). Qed.

Lemma useSWR_error k c : r_error (useSWR (Some k) c) = c !! k ≫= error.
Proof. unfold useSWR. simpl. by destruct (c !! k). Qed.

Lemma useSWR_null c :
  useSWR None c = {| r_data := None; r_error := None; r_isLoading := false |}.
Proof. reflexivity. Qed.

Lemma elem_of_matched_keys (f : Key -> bool) c k :
  k ∈ matched_keys f c ↔ is_Some (c !! k) ∧ f k = true.
Proof.
  unfold matched_keys.
  rewrite list_elem_of_In, filter_In, <- list_elem_of_In.
  rewrite list_elem_of_fmap. split.
  - intros [[[k' e] [-> Hin]] Hf]. apply elem_of_map_to_list in Hin.
    simpl in *. eauto.
  - intros [[e He] Hf]. split; [|done].
    exists (k, e). split; [done|]. by apply elem_of_map_to_list.
Qed.

Lemma mutate_lookup (f : Key -> bool) st k :
  cache (mutate f st) !! k
  = (fun e => if f k then set_isValidating true e else e) <$> cache st !! k.
Proof.
  unfold mutate. simpl. rewrite map_lookup_imap. by destruct (cache st !! k).
Qed.

Lemma mutate_requests (f : Key -> bool) st :
  requests (mutate f st) = requests st ++ matched_keys f (cache st).
Proof. reflexivity. Qed.

(** A refetch leaves what is on display in place. *)
Lemma mutate_data (f : Key -> bool) st k :
  cache (mutate f st) !! k ≫= data = cache st !! k ≫= data.
Proof.
  rewrite mutate_lookup. destruct (cache st !! k) as [e|]; [|done].
  simpl. by destruct (f k).
Qed.

Lemma mutate_error (f : Key -> bool) st k :
  cache (mutate f st) !! k ≫= error = cache st !! k ≫= error.
Proof.
  rewrite mutate_lookup. destruct (cache st !! k) as [e|]; [|done].
  simpl. by destruct (f k).
Qed.

Lemma issued_app st st' ks :
  requests st' = requests st ++ ks → issued st st' = ks.
Proof. unfold issued. intros ->. by rewrite drop_app_length. Qed.


Lemma issued_onSuccess st :
  issued st (onSuccess st) = matched_keys onSuccess_filter (cache st).
Proof. by apply issued_app. Qed.

Lemma subscribe_held key st k :
  is_Some (cache st !! k) → is_Some (cache (subscribe key st) !! k).
Proof.
  intros Hk. destruct key as [k'|]; [|done]. unfold subscribe.
  destruct (cache st !! k') eqn:Hk'; [done|]. simpl.
  rewrite lookup_insert_ne; [done|]. intros ->. rewrite Hk' in Hk.
  by destruct Hk.
Qed.

Lemma subscribe_holds k' st : is_Some (cache (subscribe (Some k') st) !! k').
Proof.
  unfold subscribe. destruct (cache st !! k') eqn:Hk'; [by rewrite Hk'|].
  simpl. by rewrite lookup_insert_eq.
Qed.

(** A subscription registers no key but its own. *)
Lemma subscribe_other key st k :
  key ≠ Some k → cache (subscribe key st) !! k = cache st !! k.
Proof.
  intros Hne. destruct key as [k'|]; [|done]. unfold subscribe.
  destruct (cache st !! k'); [done|]. simpl.
  rewrite lookup_insert_ne; [done|]. congruence.
Qed.

Lemma subscribe_requests key st k :
  key ≠ Some k → k ∈ requests (subscribe key st) → k ∈ requests st.
Proof.
  intros Hne. destruct key as [k'|]; [|done]. unfold subscribe.
  destruct (cache st !! k'); [done|]. simpl.
  rewrite elem_of_app, list_elem_of_singleton. intros [?| ->]; [done|].
  by destruct Hne.
Qed.

End CacheLemmas.

(** ** Invariants of the transition system *)

Section StepLemmas.

Variable cloud : bool.
Implicit Types (st : State) (k : Key) (ev : Event).

(** No event registers or drops a key: the held keys are those held at
    mount. *)
Lemma step_held st ev k :
  is_Some (cache (step cloud st ev) !! k) ↔ is_Some (cache st !! k).
Proof.
  destruct ev; cbn [step]; try done.
  - unfold handleInviteClick. by destruct (InviteFirstTimeGate _ _).
  - change (cache (onSuccess st)) with (cache (mutate onSuccess_filter st)).
    rewrite mutate_lookup. by rewrite fmap_is_Some.
  - unfold onFailure. destruct (json_detail body) as [d|]; [by destruct (template d)|done].
  - cbn. destruct (decide (k0 = k)) as [->|Hne].
    + rewrite lookup_alter_eq. by rewrite fmap_is_Some.
    + by rewrite lookup_alter_ne.
  - cbn. destruct (decide (k0 = k)) as [->|Hne].
    + rewrite lookup_alter_eq. by rewrite fmap_is_Some.
    + by rewrite lookup_alter_ne.
Qed.

Lemma run_held st evs k :
  is_Some (cache (run cloud st evs) !! k) ↔ is_Some (cache st !! k).
Proof.
  revert st. induction evs as [|ev evs IH]; intros st; [done|].
  simpl. fold (run cloud (step cloud st ev) evs). rewrite IH. apply step_held.
Qed.

(** The only event that issues requests is a successful submission, and
    it issues them for keys its filter matches. *)
Lemma step_requests st ev k :
  k ∈ requests (step cloud st ev) →
  k ∈ requests st ∨ onSuccess_filter k = true.
Proof.
  destruct ev; cbn [step]; auto.
  - unfold handleInviteClick. destruct (InviteFirstTimeGate _ _); auto.
  - change (requests (onSuccess st))
      with (requests st ++ matched_keys onSuccess_filter (cache st)).
    rewrite elem_of_app, elem_of_matched_keys. intros [?|[_ ?]]; auto.
  - unfold onFailure. destruct (json_detail body) as [d|]; [destruct (template d)|]; auto.
Qed.

Lemma run_requests st evs k :
  k ∈ requests (run cloud st evs) →
  k ∈ requests st ∨ onSuccess_filter k = true.
Proof.
  revert st. induction evs as [|ev evs IH]; intros st; [by left|].
  simpl. fold (run cloud (step cloud st ev) evs). intros Hk.
  destruct (IH _ Hk) as [Hk'|?]; [|by right]. by apply step_requests in Hk'.
Qed.

(** The committed query after one event. *)
Lemma step_q st ev :
  q (step cloud st ev) = if is_Search ev then query st else q st.
Proof.
  destruct ev; simpl; try done.
  - unfold handleInviteClick. by destruct (InviteFirstTimeGate _ _).
  - unfold onFailure. destruct (json_detail body) as [d|]; [by destruct (template d)|done].
Qed.

Lemma run_q_without_search st evs :
  forallb (fun ev => negb (is_Search ev)) evs = true →
  q (run cloud st evs) = q st.
Proof.
  revert st. induction evs as [|ev evs IH]; intros st; [done|].
  simpl. fold (run cloud (step cloud st ev) evs).
  intros [Hev Hevs]%andb_true_iff. rewrite (IH _ Hevs), step_q.
  by destruct (is_Search ev).
Qed.

(** The keys the hooks of the first render subscribe to are held from
    then on. *)
Lemma mount_holds_invited cache0 :
  is_Some (cache (mount cloud cache0) !! KString "/api/manage/users/invited").
Proof.
  unfold mount. cbn [List.fold_left].
  do 3 apply subscribe_held. apply subscribe_holds.
Qed.

Lemma mount_holds_domains cache0 :
  is_Some (cache (mount cloud cache0) !! KString "/api/manage/admin/valid-domains").
Proof.
  unfold mount. cbn [List.fold_left].
  apply subscribe_held. apply subscribe_holds.
Qed.

End StepLemmas.

(** In a cloud deployment the pending-users key is subscribed too. *)
Lemma mount_cloud_holds_pending cache0 :
  is_Some (cache (mount true cache0) !! KString "/api/tenants/users/pending").
Proof. unfold mount. cbn [List.fold_left]. apply subscribe_holds. Qed.

(** Outside a cloud deployment, mounting leaves the pending-users key as
    it found it and never requests it. *)
Lemma mount_single_tenant_pending cache0 :
  cache (mount false cache0) !! KString "/api/tenants/users/pending"
  = cache0 !! KString "/api/tenants/users/pending"
  ∧ KString "/api/tenants/users/pending" ∉ requests (mount false cache0).
Proof.
  unfold mount. cbn [List.fold_left]. split.
  - rewrite !subscribe_other; done.
  - intros Hin. do 4 (apply subscribe_requests in Hin; [|done]).
    simpl in Hin. by apply not_elem_of_nil in Hin.
Qed.

(** ** The invalidation filter *)

Lemma prefix_app (p s : string) :
  String.prefix p s = true ↔ ∃ r, s = (p ++ r)%string.
Proof.
  revert s. induction p as [|a p IH]; intros s.
  - split; [intros _; by exists s|by destruct s].
  - destruct s as [|b s].
    + split; [done|]. intros [r Hr]. discriminate Hr.
    + change (String.prefix (String a p) (String b s))
        with (if Ascii.ascii_dec a b then String.prefix p s else false).
      destruct (Ascii.ascii_dec a b) as [->|Hne].
      * rewrite IH. split; intros [r Hr]; exists r.
        -- by rewrite Hr.
        -- by injection Hr.
      * split; [done|]. intros [r Hr]. injection Hr as -> _. by destruct Hne.
Qed.

(** The filter accepts exactly the string keys under the users prefix. *)
Lemma onSuccess_filter_spec (k : Key) :
  onSuccess_filter k = true ↔ ∃ r, k = KString ("/api/manage/users" ++ r).
Proof.
  destruct k as [s|s]; simpl.
  - change (String.prefix "/api/manage/users" s = true
            ↔ ∃ r, KString s = KString ("/api/manage/users" ++ r)).
    rewrite prefix_app. split; intros [r Hr]; exists r; congruence.
  - split; [done|]. by intros [r ?].
Qed.

(** ** The valid-domains gate *)

(** [UsersTables] branches on the data, then on the error, of the
    valid-domains entry. *)
Lemma UsersTables_gate (cloud : bool) (q : string) (c : gmap Key Entry) :
  UsersTables cloud q c
  = match c !! KString "/api/manage/admin/valid-domains" ≫= data with
    | None => ThreeDotsLoader
    | Some _ =>
        match c !! KString "/api/manage/admin/valid-domains" ≫= error with
        | Some err =>
            ErrorCallout "Error loading valid domains" (info err ≫= detail)
        | None => UsersTables cloud q c
        end
    end.
Proof.
  unfold UsersTables, UsersTables_domains_key. cbv zeta.
  rewrite (useSWR_data _ c), (useSWR_error _ c).
  destruct (c !! KString "/api/manage/admin/valid-domains" ≫= data); [|done].
  by destruct (c !! KString "/api/manage/admin/valid-domains" ≫= error).
Qed.

(** With data and an error on the valid-domains entry the error panel
    replaces the tabs. *)
Lemma UsersTables_domains_error_with_data (cloud : bool) (q : string)
    (c : gmap Key Entry) (d : list Item) (err : FetchError) :
  c !! KString "/api/manage/admin/valid-domains" ≫= data = Some d →
  c !! KString "/api/manage/admin/valid-domains" ≫= error = Some err →
  UsersTables cloud q c
  = ErrorCallout "Error loading valid domains" (info err ≫= detail).
Proof. intros Hd He. rewrite UsersTables_gate. by rewrite Hd, He. Qed.

(** Without data the loading indicator is rendered, whatever the error. *)
Lemma UsersTables_domains_without_data (cloud : bool) (q : string)
    (c : gmap Key Entry) :
  c !! KString "/api/manage/admin/valid-domains" ≫= data = None →
  UsersTables cloud q c = ThreeDotsLoader.
Proof. intros Hd. rewrite UsersTables_gate. by rewrite Hd. Qed.

(** An errored valid-domains entry never lets tabs or tables through. *)
Lemma UsersTables_domains_error_no_tables (cloud : bool) (q : string)
    (c : gmap Key Entry) (err : FetchError) :
  c !! KString "/api/manage/admin/valid-domains" ≫= error = Some err →
  element_tables (UsersTables cloud q c) = []
  ∧ element_tab_values (UsersTables cloud q c) = [].
Proof.
  intros He. rewrite UsersTables_gate. rewrite He.
  by destruct (c !! KString "/api/manage/admin/valid-domains" ≫= data).
Qed.

(** C1 (fails on the code): the valid-domains request failed before any
    data was loaded, so the entry carries an error and no data.  The claim
    asks for the error panel; [UsersTables] tests the data first and
    renders the loading indicator. *)
Example UsersTables_first_fetch_error_renders_loader :
  let err := {| info := Some {| detail := Some "Access denied" |} |} in
  let st :=
    run false (mount false ∅)
      [FetchRejected (KString "/api/manage/admin/valid-domains") err] in
  cache st !! KString "/api/manage/admin/valid-domains"
  = Some {| data := None; error := Some err; isValidating := false |}
  ∧ UsersTables false (q st) (cache st) = ThreeDotsLoader
  ∧ UsersTables false (q st) (cache st)
    ≠ ErrorCallout "Error loading valid domains" (Some "Access denied").
Proof. by vm_compute. Qed.

(** ** A successful submission *)

(** What [onSuccess] does to any state: the modal closes, the success
    popup is set, the held keys under the users prefix are refetched and
    nothing on display is cleared. *)
Lemma onSuccess_effects (st : State) :
  modal (onSuccess st) = false
  ∧ popup (onSuccess st) = Some {| message := "Users invited!"; type := success |}
  ∧ (∀ k, k ∈ issued st (onSuccess st)
          ↔ is_Some (cache st !! k) ∧ onSuccess_filter k = true)
  ∧ (∀ k, cache (onSuccess st) !! k ≫= data = cache st !! k ≫= data)
  ∧ (∀ k, cache (onSuccess st) !! k ≫= error = cache st !! k ≫= error).
Proof.
  split; [done|]. split; [done|]. split; [|split].
  - intros k. rewrite issued_onSuccess. apply elem_of_matched_keys.
  - intros k. apply (mutate_data onSuccess_filter).
  - intros k. apply (mutate_error onSuccess_filter).
Qed.

(** C2 (as stated, fails on the code): in a cloud deployment whose three
    lists have loaded, a successful submission from the open modal closes
    the modal, sets the success popup and refetches the invited-users
    entry, but issues no request for the pending-users entry. *)
Example onSuccess_cloud_pending_not_refetched :
  let st :=
    run true (mount true ∅)
      [ FetchResolved (KString "/api/manage/admin/valid-domains") [Domain "x.com"];
        FetchResolved (KString "/api/manage/users/invited") [];
        FetchResolved (KString "/api/tenants/users/pending") [];
        InviteClick ] in
  modal st = true
  ∧ is_Some (cache st !! KString "/api/tenants/users/pending")
  ∧ ¬ (modal (onSuccess st) = false
       ∧ popup (onSuccess st)
         = Some {| message := "Users invited!"; type := success |}
       ∧ KString "/api/manage/users/invited" ∈ issued st (onSuccess st)
       ∧ KString "/api/tenants/users/pending" ∈ issued st (onSuccess st)).
Proof.
  split; [by vm_compute|]. split; [apply run_held, mount_cloud_holds_pending|].
  intros (_ & _ & _ & Hpending).
  apply onSuccess_effects in Hpending as [_ Hfilter]. by vm_compute in Hfilter.
Qed.

(** C2 (amended): in every state the page can reach, the success handler
    closes the modal, sets the popup "Users invited!" of type success, and
    refetches exactly the held keys that are strings starting with
    "/api/manage/users", clearing no data and no error.  The invited-users
    entry, which feeds the Invited Users and the Current Users tables, is
    among them; the pending-users entry, keyed
    "/api/tenants/users/pending", is not, cloud deployment or not. *)
Theorem onSuccess_refetches_users_prefix (cloud : bool)
    (cache0 : gmap Key Entry) (evs : list Event) :
  let st := run cloud (mount cloud cache0) evs in
  modal (onSuccess st) = false
  ∧ popup (onSuccess st) = Some {| message := "Users invited!"; type := success |}
  ∧ (∀ k, k ∈ issued st (onSuccess st)
          ↔ is_Some (cache st !! k)
            ∧ (∃ r, k = KString ("/api/manage/users" ++ r)))
  ∧ KString "/api/manage/users/invited" ∈ issued st (onSuccess st)
  ∧ (KString "/api/tenants/users/pending" ∉ issued st (onSuccess st))
  ∧ (∀ k, cache (onSuccess st) !! k ≫= data = cache st !! k ≫= data)
  ∧ (∀ k, cache (onSuccess st) !! k ≫= error = cache st !! k ≫= error).
Proof.
  intros st.
  destruct (onSuccess_effects st) as (Hmodal & Hpopup & Hissued & Hdata & Herror).
  split; [done|]. split; [done|]. split; [|split; [|split; [|done]]].
  - intros k. rewrite Hissued. by rewrite onSuccess_filter_spec.
  - apply Hissued. split; [|done].
    apply run_held, mount_holds_invited.
  - intros Hk. by apply Hissued in Hk as [_ Hk].
Qed.

(** C8: a successful submission leaves the valid-domains entry as it was
    and issues no request for it: the filter accepts only string keys that
    start with "/api/manage/users", and "/api/manage/admin/valid-domains"
    is not one. *)
Theorem onSuccess_keeps_valid_domains (st : State) :
  cache (onSuccess st) !! KString "/api/manage/admin/valid-domains"
  = cache st !! KString "/api/manage/admin/valid-domains"
  ∧ (KString "/api/manage/admin/valid-domains" ∉ issued st (onSuccess st))
  ∧ onSuccess_filter (KString "/api/manage/admin/valid-domains") = false
  ∧ (∀ k, onSuccess_filter k = true
          ↔ ∃ s, k = KString s ∧ String.prefix "/api/manage/users" s = true).
Proof.
  split; [|split; [|split; [done|]]].
  - change (cache (onSuccess st)) with (cache (mutate onSuccess_filter st)).
    rewrite mutate_lookup.
    by destruct (cache st !! KString "/api/manage/admin/valid-domains").
  - intros Hk. rewrite issued_onSuccess in Hk.
    by apply elem_of_matched_keys in Hk as [_ Hk].
  - intros k. split.
    + destruct k as [s|s]; [by exists s|done].
    + by intros (s & -> & Hs).
Qed.

(** ** The tabs *)

(** Whatever the cache holds, [UsersTables] renders the loading
    indicator, the error panel, or the tabs with the panels above. *)
Lemma UsersTables_cases (cloud : bool) (q : string) (c : gmap Key Entry) :
  UsersTables cloud q c = ThreeDotsLoader
  ∨ (∃ msg, UsersTables cloud q c = ErrorCallout "Error loading valid domains" msg)
  ∨ (∃ triggers,
        UsersTables cloud q c = Tabs "current" triggers (tab_contents cloud q c)
        ∧ List.map trigger_value triggers
          = ["current"; "invited"] ++ (if cloud then ["pending"] else [])).
Proof.
  unfold UsersTables, tab_contents. cbv zeta.
  destruct (r_data (useSWR UsersTables_domains_key c)); [|by left].
  destruct (r_error (useSWR UsersTables_domains_key c)); right; [left; eauto|].
  right. eexists. split; [reflexivity|]. by destruct cloud.
Qed.

(** Once the valid domains are there without an error, the tabs are
    rendered. *)
Lemma UsersTables_passed (cloud : bool) (q : string) (c : gmap Key Entry)
    (d : list Item) :
  c !! KString "/api/manage/admin/valid-domains" ≫= data = Some d →
  c !! KString "/api/manage/admin/valid-domains" ≫= error = None →
  element_tables (UsersTables cloud q c)
  = List.map content_table (tab_contents cloud q c).
Proof.
  intros Hd He. unfold UsersTables, tab_contents, UsersTables_domains_key.
  cbv zeta. rewrite (useSWR_data _ c), (useSWR_error _ c), Hd, He.
  reflexivity.
Qed.

Lemma UsersTables_tables (cloud : bool) (q : string) (c : gmap Key Entry) :
  element_tables (UsersTables cloud q c) = []
  ∨ element_tables (UsersTables cloud q c)
    = List.map content_table (tab_contents cloud q c).
Proof.
  destruct (UsersTables_cases cloud q c) as [->|[[msg ->]|(tr & -> & _)]];
    auto.
Qed.

Lemma tab_contents_invited (cloud : bool) (q : string) (c : gmap Key Entry)
    (t : Table) (l : list Item) :
  t ∈ List.map content_table (tab_contents cloud q c) →
  table_invited t = Some l →
  l = default [] (c !! KString "/api/manage/users/invited" ≫= data).
Proof.
  unfold tab_contents. cbv zeta. rewrite (useSWR_data _ c).
  rewrite List.map_app. cbn [List.map content_table app].
  rewrite !elem_of_cons. intros [->|[->|Ht]]; cbn; try congruence.
  destruct cloud; cbn in Ht.
  - apply list_elem_of_singleton in Ht as ->. done.
  - by apply not_elem_of_nil in Ht.
Qed.

Lemma tab_contents_q (cloud : bool) (q : string) (c : gmap Key Entry) :
  Forall (fun t => table_q t = q) (List.map content_table (tab_contents cloud q c)).
Proof.
  unfold tab_contents. cbv zeta. rewrite List.map_app.
  apply Forall_app. split.
  - by repeat constructor.
  - destruct cloud; by repeat constructor.
Qed.

(** ** The invite workflow *)

(** The gate is open exactly outside a cloud deployment with an array
    that is there and empty. *)
Lemma InviteFirstTimeGate_true (cloud : bool) (invitedUsers : option (list Item)) :
  InviteFirstTimeGate cloud invitedUsers = true
  ↔ cloud = false ∧ invitedUsers = Some [].
Proof.
  unfold InviteFirstTimeGate. destruct cloud; simpl; [by split; [|intros []]|].
  destruct invitedUsers as [[|u l]|]; simpl; split; try done; by intros [].
Qed.

(** C3: in single-tenant mode, with nothing open and an invited list that
    is known and empty, activating the invite control shows the
    confirmation step and no modal; confirming from there shows the
    bulk-add modal alone, and dismissing shows nothing and leaves the
    state as it was before the click. *)
Theorem first_invite_confirmation_flow (st : State) :
  modal st = false →
  showConfirmation st = false →
  AddUserButton_invitedUsers (cache st) = Some [] →
  AddUserButton (step false st InviteClick) = [ConfirmEntityModal]
  ∧ AddUserButton (step false (step false st InviteClick) ConfirmFirstInvite)
    = [BulkAddModal]
  ∧ AddUserButton (step false (step false st InviteClick) DismissConfirmation)
    = []
  ∧ step false (step false st InviteClick) DismissConfirmation = st.
Proof.
  intros Hmodal Hconf Hinvited. cbn [step]. unfold handleInviteClick.
  rewrite Hinvited. cbn. unfold AddUserButton. cbn. rewrite Hmodal. cbn.
  split; [done|]. split; [done|]. split; [done|].
  destruct st; simpl in *; by subst.
Qed.

Lemma first_invite_confirmation_flow_witness :
  let st :=
    run false (mount false ∅)
      [ FetchResolved (KString "/api/manage/admin/valid-domains") [];
        FetchResolved (KString "/api/manage/users/invited") [] ] in
  AddUserButton (step false st InviteClick) = [ConfirmEntityModal]
  ∧ AddUserButton (step false (step false st InviteClick) ConfirmFirstInvite)
    = [BulkAddModal]
  ∧ AddUserButton (step false (step false st InviteClick) DismissConfirmation)
    = []
  ∧ step false (step false st InviteClick) DismissConfirmation = st.
Proof.
  apply first_invite_confirmation_flow; vm_compute; reflexivity.
Defined.

(** C4: when the invited-users entry has no data, or its list is not
    empty, the first-invite gate is false: activating the invite control
    sets the modal open and leaves the confirmation flag alone, so from
    the idle state the bulk-add modal is shown without the confirmation
    step, in either kind of deployment. *)
Theorem invite_click_opens_modal_directly (cloud : bool) (st : State) :
  AddUserButton_invitedUsers (cache st) = None
  ∨ (∃ u l, AddUserButton_invitedUsers (cache st) = Some (u :: l)) →
  InviteFirstTimeGate cloud (AddUserButton_invitedUsers (cache st)) = false
  ∧ step cloud st InviteClick = setModal true st
  ∧ modal (step cloud st InviteClick) = true
  ∧ showConfirmation (step cloud st InviteClick) = showConfirmation st
  ∧ AddUserButton (step cloud st InviteClick)
    = (if showConfirmation st then [ConfirmEntityModal] else []) ++ [BulkAddModal].
Proof.
  intros Hinvited.
  assert (InviteFirstTimeGate cloud (AddUserButton_invitedUsers (cache st)) = false)
    as Hgate.
  { unfold InviteFirstTimeGate.
    destruct Hinvited as [->|(u & l & ->)]; by destruct cloud. }
  cbn [step]. unfold handleInviteClick. by rewrite Hgate.
Qed.

Lemma invite_click_opens_modal_directly_witness :
  let unknown := mount false ∅ in
  let known :=
    run false (mount false ∅)
      [ FetchResolved (KString "/api/manage/users/invited")
          [User {| email := "a@x.com" |}] ] in
  AddUserButton (step false unknown InviteClick) = [BulkAddModal]
  ∧ AddUserButton (step false known InviteClick) = [BulkAddModal].
Proof.
  split.
  - refine (proj2 (proj2 (proj2 (proj2
      (invite_click_opens_modal_directly false (mount false ∅) _))))).
    left. vm_compute. reflexivity.
  - refine (proj2 (proj2 (proj2 (proj2
      (invite_click_opens_modal_directly false
         (run false (mount false ∅)
            [ FetchResolved (KString "/api/manage/users/invited")
                [User {| email := "a@x.com" |}] ]) _))))).
    right. exists (User {| email := "a@x.com" |}), []. vm_compute. reflexivity.
Defined.

(** ** A failed submission *)


Lemma get_field_None (name : string) (fields : list (string * JSON)) :
  get_field name fields = None ↔ has_member name fields = false.
Proof.
  induction fields as [|[k v] fields IH]; [done|].
  cbn [get_field has_member existsb fst]. fold (has_member name fields).
  destruct (get_field name fields) as [later|].
  - split; [done|]. intros [_ Hrest]%orb_false_iff.
    apply IH in Hrest. discriminate Hrest.
  - rewrite (proj1 IH eq_refl), orb_false_r. by destruct (String.eqb k name).
Qed.

(** The member read is the last one of that name. *)
Lemma get_field_last (name : string) (pre post : list (string * JSON)) (v : JSON) :
  has_member name post = false →
  get_field name (pre ++ (name, v) :: post) = Some v.
Proof.
  intros Hpost. induction pre as [|[k w] pre IH].
  - cbn [app get_field]. rewrite (proj2 (get_field_None name post) Hpost).
    by rewrite String.eqb_refl.
  - cbn [app get_field]. by rewrite IH.
Qed.




(** ** The pending-users tab *)

(** C6: outside a cloud deployment the pending-users hook is given no
    key; whatever the cache held at mount and whatever events and server
    responses follow, the page never requests
    "/api/tenants/users/pending", never registers it in the cache, and
    renders neither a Pending Users tab nor a pending-users table. *)
Theorem single_tenant_never_fetches_pending (cache0 : gmap Key Entry)
    (evs : list Event) :
  let st := run false (mount false cache0) evs in
  UsersTables_pending_key false = None
  ∧ (KString "/api/tenants/users/pending" ∉ requests st)
  ∧ (is_Some (cache st !! KString "/api/tenants/users/pending")
     ↔ is_Some (cache0 !! KString "/api/tenants/users/pending"))
  ∧ ("pending" ∉ element_tab_values (UsersTables false (q st) (cache st)))
  ∧ forallb (fun t => negb (is_PendingUsersTable t))
      (element_tables (UsersTables false (q st) (cache st))) = true.
Proof.
  intros st. destruct (mount_single_tenant_pending cache0) as [Hcache Hreq].
  split; [done|]. split; [|split; [|split]].
  - intros Hin. apply run_requests in Hin as [Hin|Hin]; [done|].
    by vm_compute in Hin.
  - unfold st. by rewrite run_held, Hcache.
  - destruct (UsersTables_cases false (q st) (cache st))
      as [->|[[msg ->]|(tr & -> & Htr)]]; cbn [element_tab_values].
    + apply not_elem_of_nil.
    + apply not_elem_of_nil.
    + rewrite Htr. unfold tab_contents. cbn.
      rewrite !elem_of_cons. intros [?|[?|[?|[?|?%not_elem_of_nil]]]]; done.
  - destruct (UsersTables_tables false (q st) (cache st)) as [->| ->]; done.
Qed.

(** ** The search query *)

(** C7: after any one event the committed query is the draft if the event
    is the search submission and is unchanged otherwise; every table is
    rendered from the committed query, and a keystroke changes nothing of
    what the tables are rendered from. *)
Theorem committed_query_changes_only_on_search (cloud : bool) (st : State)
    (ev : Event) :
  q (step cloud st ev) = (if is_Search ev then query st else q st)
  ∧ Forall (fun t => table_q t = q st)
      (element_tables (SearchableTables cloud st).2)
  ∧ (∀ s, q (step cloud st (Keystroke s)) = q st
          ∧ query (step cloud st (Keystroke s)) = s
          ∧ (SearchableTables cloud (step cloud st (Keystroke s))).2
            = (SearchableTables cloud st).2).
Proof.
  split; [apply step_q|]. split; [|done].
  unfold SearchableTables. cbn [snd].
  destruct (UsersTables_tables cloud (q st) (cache st)) as [->| ->].
  - constructor.
  - apply tab_contents_q.
Qed.

(** ** The invited-users entry *)

(** C9: while the invited-users entry has no data, every table that takes
    the invited list is handed the empty list; and once the valid domains
    are there without an error, the Current Users and the Invited Users
    tables are rendered, with that empty list. *)
Theorem tables_get_empty_list_without_invited_data (cloud : bool) (q : string)
    (c : gmap Key Entry) :
  c !! KString "/api/manage/users/invited" ≫= data = None →
  (∀ t l, t ∈ element_tables (UsersTables cloud q c) →
          table_invited t = Some l → l = [])
  ∧ (∀ d, c !! KString "/api/manage/admin/valid-domains" ≫= data = Some d →
          c !! KString "/api/manage/admin/valid-domains" ≫= error = None →
          SignedUpUserTable [] q ∈ element_tables (UsersTables cloud q c)
          ∧ InvitedUserTable []
              (c !! KString "/api/manage/users/invited" ≫= error)
              (r_isLoading (useSWR UsersTables_invited_key c)) q
            ∈ element_tables (UsersTables cloud q c)).
Proof.
  intros Hnone. split.
  - intros t l Ht Hl.
    destruct (UsersTables_tables cloud q c) as [Hnil|Htabs].
    + rewrite Hnil in Ht. by apply not_elem_of_nil in Ht.
    + rewrite Htabs in Ht.
      rewrite (tab_contents_invited cloud q c t l Ht Hl). by rewrite Hnone.
  - intros d Hd He. rewrite (UsersTables_passed cloud q c d Hd He).
    unfold tab_contents, UsersTables_invited_key. cbv zeta.
    rewrite (useSWR_data _ c), (useSWR_error _ c), Hnone.
    rewrite List.map_app. cbn [List.map content_table default].
    split; apply elem_of_app; left.
    + apply elem_of_cons. by left.
    + apply elem_of_cons. right. apply elem_of_cons. by left.
Qed.

Lemma tables_get_empty_list_without_invited_data_witness :
  let c :=
    cache (run false (mount false ∅)
             [ FetchResolved (KString "/api/manage/admin/valid-domains")
                 [Domain "x.com"] ]) in
  c !! KString "/api/manage/users/invited" ≫= data = None
  ∧ element_tables (UsersTables false "" c)
    = [SignedUpUserTable [] ""; InvitedUserTable [] None true ""]
  ∧ (∀ t l, t ∈ element_tables (UsersTables false "" c) →
            table_invited t = Some l → l = []).
Proof.
  split; [vm_compute; reflexivity|]. split; [vm_compute; reflexivity|].
  refine (proj1 (tables_get_empty_list_without_invited_data false "" _ _)).
  vm_compute. reflexivity.
Defined.

(** C10: the invite button and the tables subscribe to the same key,
    "/api/manage/users/invited", so in every state the list the gate
    tests is the data of the entry the Invited Users table is rendered
    from: the table is handed that list, or the empty list while there is
    none, and the gate is open exactly outside a cloud deployment when
    that list is there and empty. *)
Theorem gate_and_invited_view_share_entry (cloud : bool) (q : string)
    (c : gmap Key Entry) :
  AddUserButton_invited_key = UsersTables_invited_key
  ∧ AddUserButton_invited_key = Some (KString "/api/manage/users/invited")
  ∧ AddUserButton_invitedUsers c = r_data (useSWR UsersTables_invited_key c)
  ∧ (∀ users err loading q',
        InvitedUserTable users err loading q'
        ∈ element_tables (UsersTables cloud q c) →
        users = default [] (AddUserButton_invitedUsers c))
  ∧ (InviteFirstTimeGate cloud (AddUserButton_invitedUsers c) = true
     ↔ cloud = false ∧ AddUserButton_invitedUsers c = Some []).
Proof.
  split; [done|]. split; [done|]. split; [done|]. split.
  - intros users err loading q' Ht.
    destruct (UsersTables_tables cloud q c) as [Hnil|Htabs].
    + rewrite Hnil in Ht. by apply not_elem_of_nil in Ht.
    + rewrite Htabs in Ht. unfold AddUserButton_invitedUsers.
      unfold AddUserButton_invited_key. rewrite (useSWR_data _ c).
      by apply (tab_contents_invited cloud q c _ users Ht).
  - apply InviteFirstTimeGate_true.
Qed.

(** ** Further properties of the page *)

(** *** What [UsersTables] renders *)

(** The two tests of [UsersTables] decide the whole rendering: the
    loading indicator exactly while the valid-domains entry has no data,
    the error panel exactly when it has data and an error, the tabs
    exactly when it has data and no error. *)
Theorem UsersTables_rendering_decided_by_domains_entry (cloud : bool)
    (q : string) (c : gmap Key Entry) :
  (UsersTables cloud q c = ThreeDotsLoader
   ↔ c !! KString "/api/manage/admin/valid-domains" ≫= data = None)
  ∧ ((∃ title msg, UsersTables cloud q c = ErrorCallout title msg)
     ↔ is_Some (c !! KString "/api/manage/admin/valid-domains" ≫= data)
       ∧ is_Some (c !! KString "/api/manage/admin/valid-domains" ≫= error))
  ∧ ((∃ dv triggers contents, UsersTables cloud q c = Tabs dv triggers contents)
     ↔ is_Some (c !! KString "/api/manage/admin/valid-domains" ≫= data)
       ∧ c !! KString "/api/manage/admin/valid-domains" ≫= error = None).
Proof.
  unfold UsersTables, UsersTables_domains_key. cbv zeta.
  rewrite (useSWR_data _ c), (useSWR_error _ c).
  destruct (c !! KString "/api/manage/admin/valid-domains" ≫= data) as [d|];
    destruct (c !! KString "/api/manage/admin/valid-domains" ≫= error) as [err|].
  - split; [done|]. split.
    + split; [by eauto|]. eauto.
    + split; [by intros (? & ? & ? & ?)|]. by intros [_ ?].
  - split; [done|]. split.
    + split; [by intros (? & ? & ?)|]. by intros [_ [? ?]].
    + split; [by eauto|]. eauto.
  - split; [done|]. split.
    + split; [by intros (? & ? & ?)|]. by intros [[? ?] _].
    + split; [by intros (? & ? & ? & ?)|]. by intros [[? ?] _].
  - split; [done|]. split.
    + split; [by intros (? & ? & ?)|]. by intros [[? ?] _].
    + split; [by intros (? & ? & ? & ?)|]. by intros [[? ?] _].
Qed.

(** The message of the error panel is [domainsError?.info?.detail]: the
    detail when the error carries one, [undefined] when the error has no
    [info] or the [info] has no [detail]. *)
Theorem UsersTables_error_panel_message (cloud : bool) (q : string)
    (c : gmap Key Entry) (d : list Item) (err : FetchError) :
  c !! KString "/api/manage/admin/valid-domains" ≫= data = Some d →
  c !! KString "/api/manage/admin/valid-domains" ≫= error = Some err →
  UsersTables cloud q c
  = ErrorCallout "Error loading valid domains"
      match info err with
      | Some i => detail i
      | None => None
      end.
Proof.
  intros Hd He. rewrite UsersTables_gate, Hd, He. by destruct (info err).
Qed.

Lemma UsersTables_error_panel_message_witness :
  let st :=
    run false (mount false ∅)
      [ FetchResolved (KString "/api/manage/admin/valid-domains") [Domain "x.com"];
        FetchRejected (KString "/api/manage/admin/valid-domains") {| info := None |} ] in
  UsersTables false (q st) (cache st)
  = ErrorCallout "Error loading valid domains" None.
Proof.
  apply (UsersTables_error_panel_message false _ _ [Domain "x.com"] {| info := None |});
    vm_compute; reflexivity.
Defined.

(** Whenever the tabs are rendered, the default tab is "current", every
    trigger has the panel of the same value at the same position, with
    the trigger's label as the panel's title, the default tab is one of
    them, and there are two tabs outside a cloud deployment and three in
    one. *)
Theorem UsersTables_triggers_match_panels (cloud : bool) (q : string)
    (c : gmap Key Entry) (dv : string) (triggers : list TabsTrigger)
    (contents : list TabsContent) :
  UsersTables cloud q c = Tabs dv triggers contents →
  dv = "current"
  ∧ List.map trigger_value triggers = List.map content_value contents
  ∧ List.map trigger_label triggers = List.map content_title contents
  ∧ dv ∈ List.map content_value contents
  ∧ List.length contents = (if cloud then 3 else 2).
Proof.
  unfold UsersTables. cbv zeta.
  destruct (r_data (useSWR UsersTables_domains_key c)); [|done].
  destruct (r_error (useSWR UsersTables_domains_key c)); [done|].
  intros [= <- <- <-]. destruct cloud; cbn.
  - repeat split; try done. apply elem_of_cons. by left.
  - repeat split; try done. apply elem_of_cons. by left.
Qed.

Lemma UsersTables_triggers_match_panels_witness :
  ∃ triggers contents,
    List.map trigger_value triggers = ["current"; "invited"; "pending"]
    ∧ List.map trigger_value triggers = List.map content_value contents
    ∧ List.length contents = 3.
Proof.
  pose (c := cache (run true (mount true ∅)
                      [FetchResolved (KString "/api/manage/admin/valid-domains") []])).
  destruct (UsersTables true "" c) as [| |dv triggers contents] eqn:Hrender;
    [by vm_compute in Hrender|by vm_compute in Hrender|].
  exists triggers, contents.
  destruct (UsersTables_triggers_match_panels true "" c dv triggers contents Hrender)
    as (_ & Hvalues & _ & _ & Hlen).
  split; [|by split].
  vm_compute in Hrender. by injection Hrender as <- <- <-.
Defined.

(** [UsersTables] reads nothing but the entries of its own keys: two
    caches that agree on them are rendered alike, whatever else they
    hold. *)
Theorem UsersTables_reads_only_its_keys (cloud : bool) (q : string)
    (c c' : gmap Key Entry) :
  (∀ k, k ∈ UsersTables_keys cloud → c !! k = c' !! k) →
  UsersTables cloud q c = UsersTables cloud q c'.
Proof.
  intros Hagree.
  assert (useSWR UsersTables_invited_key c = useSWR UsersTables_invited_key c')
    as Hinv.
  { unfold useSWR, UsersTables_invited_key. cbn [mbind option_bind].
    rewrite (Hagree (KString "/api/manage/users/invited")); [done|].
    unfold UsersTables_keys. destruct cloud; cbn; set_solver. }
  assert (useSWR UsersTables_domains_key c = useSWR UsersTables_domains_key c')
    as Hdom.
  { unfold useSWR, UsersTables_domains_key. cbn [mbind option_bind].
    rewrite (Hagree (KString "/api/manage/admin/valid-domains")); [done|].
    unfold UsersTables_keys. destruct cloud; cbn; set_solver. }
  assert (useSWR (UsersTables_pending_key cloud) c
          = useSWR (UsersTables_pending_key cloud) c') as Hpen.
  { destruct cloud; [|done].
    unfold useSWR, UsersTables_pending_key. cbn [mbind option_bind].
    rewrite (Hagree (KString "/api/tenants/users/pending")); [done|].
    unfold UsersTables_keys. cbn. set_solver. }
  unfold UsersTables. cbv zeta. by rewrite Hinv, Hdom, Hpen.
Qed.

Lemma UsersTables_reads_only_its_keys_witness :
  let c := cache (mount false ∅) in
  UsersTables false "a"
    (<[KString "/api/tenants/users/pending" :=
         {| data := Some []; error := None; isValidating := false |}]> c)
  = UsersTables false "a" c.
Proof.
  symmetry. apply UsersTables_reads_only_its_keys.
  intros k Hk. rewrite lookup_insert_ne; [done|].
  intros <-. unfold UsersTables_keys in Hk. cbn in Hk.
  rewrite !elem_of_cons in Hk.
  destruct Hk as [?|[?|?%not_elem_of_nil]]; done.
Defined.



(** Any valid-domains response with data opens the gate, the empty list
    included (an empty array is truthy): right after it the Current Users
    and Invited Users tables are on display, and in a cloud deployment the
    Pending Users table too, handed the pending list or the empty list in
    its place. *)
Theorem domains_response_opens_gate (cloud : bool) (cache0 : gmap Key Entry)
    (d : list Item) :
  let st :=
    step cloud (mount cloud cache0)
      (FetchResolved (KString "/api/manage/admin/valid-domains") d) in
  element_tables (UsersTables cloud (q st) (cache st))
  = [ SignedUpUserTable
        (default [] (cache st !! KString "/api/manage/users/invited" ≫= data)) "";
      InvitedUserTable
        (default [] (cache st !! KString "/api/manage/users/invited" ≫= data))
        (cache st !! KString "/api/manage/users/invited" ≫= error)
        (r_isLoading (useSWR UsersTables_invited_key (cache st))) "" ]
    ++ (if cloud
        then [ PendingUsersTable
                 (default [] (cache st !! KString "/api/tenants/users/pending" ≫= data))
                 (cache st !! KString "/api/tenants/users/pending" ≫= error)
                 (r_isLoading (useSWR (UsersTables_pending_key true) (cache st))) "" ]
        else []).
Proof.
  intros st.
  assert (q st = "") as Hq.
  { unfold st. rewrite step_q. cbn [is_Search]. unfold mount.
    cbn [List.fold_left].
    assert (∀ key s, q (subscribe key s) = q s) as Hsub.
    { intros [k|] s; [|done]. unfold subscribe. by destruct (cache s !! k). }
    by rewrite !Hsub. }
  destruct (mount_holds_domains cloud cache0) as [e He].
  assert (cache st !! KString "/api/manage/admin/valid-domains"
          = Some {| data := Some d; error := None; isValidating := false |}) as Hdom.
  { unfold st. cbn [step]. unfold fetch_resolved, setCache. cbn [cache].
    by rewrite lookup_alter_eq, He. }
  rewrite (UsersTables_passed cloud (q st) (cache st) d);
    [|by rewrite Hdom|by rewrite Hdom].
  unfold tab_contents, UsersTables_invited_key. cbv zeta.
  rewrite !(useSWR_data _ (cache st)), !(useSWR_error _ (cache st)), Hq.
  rewrite List.map_app. cbn [List.map content_table]. f_equal.
  destruct cloud; [|done]. cbn [List.map content_table]. unfold UsersTables_pending_key.
  by rewrite !(useSWR_data _ (cache st)), !(useSWR_error _ (cache st)).
Qed.

(** *** The dialogs of [AddUserButton] *)

Lemma subscribe_frame (key : option Key) (st : State) :
  query (subscribe key st) = query st
  ∧ q (subscribe key st) = q st
  ∧ modal (subscribe key st) = modal st
  ∧ showConfirmation (subscribe key st) = showConfirmation st
  ∧ popup (subscribe key st) = popup st.
Proof.
  destruct key as [k|]; [|done]. unfold subscribe. by destruct (cache st !! k).
Qed.

(** The page mounts idle: empty search cells, nothing open, no popup. *)
Lemma mount_idle (cloud : bool) (cache0 : gmap Key Entry) :
  query (mount cloud cache0) = ""
  ∧ q (mount cloud cache0) = ""
  ∧ modal (mount cloud cache0) = false
  ∧ showConfirmation (mount cloud cache0) = false
  ∧ popup (mount cloud cache0) = None.
Proof.
  unfold mount. cbn [List.fold_left].
  repeat match goal with
         | |- context [subscribe ?key ?s] =>
             destruct (subscribe_frame key s) as (-> & -> & -> & -> & ->)
         end.
  done.
Qed.

(** In a cloud deployment the confirmation step never shows, in any state
    the page can reach: the gate is closed there whatever the invited
    list, the known and empty one included. *)
Theorem cloud_never_shows_confirmation (cache0 : gmap Key Entry)
    (evs : list Event) :
  showConfirmation (run true (mount true cache0) evs) = false
  ∧ (ConfirmEntityModal ∉ AddUserButton (run true (mount true cache0) evs)).
Proof.
  assert (showConfirmation (run true (mount true cache0) evs) = false) as Hconf.
  { destruct (mount_idle true cache0) as (_ & _ & _ & Hidle & _).
    revert Hidle. generalize (mount true cache0).
    induction evs as [|ev evs IH]; intros st Hst; [done|].
    cbn [run List.fold_left]. apply IH.
    destruct ev; cbn [step]; try done.
    unfold onFailure. destruct (json_detail body) as [d|]; [by destruct (template d)|done]. }
  split; [done|]. unfold AddUserButton. rewrite Hconf.
  destruct (modal _); cbn.
  - by intros [=]%list_elem_of_singleton.
  - apply not_elem_of_nil.
Qed.

(** Nothing but the two clicks opens a dialog: as long as the invite
    control and the confirmation's Continue have not been clicked, no
    overlay is shown, whatever the server answers and whatever is typed
    or submitted. *)
Theorem dialogs_open_only_on_clicks (cloud : bool) (cache0 : gmap Key Entry)
    (evs : list Event) :
  forallb (fun ev => negb (opens_dialog ev)) evs = true →
  AddUserButton (run cloud (mount cloud cache0) evs) = [].
Proof.
  destruct (mount_idle cloud cache0) as (_ & _ & Hmodal & Hconf & _).
  revert Hmodal Hconf. generalize (mount cloud cache0).
  induction evs as [|ev evs IH]; intros st Hmodal Hconf Hevs.
  - unfold AddUserButton. cbn. by rewrite Hmodal, Hconf.
  - cbn [forallb] in Hevs. apply andb_true_iff in Hevs as [Hev Hevs].
    cbn [run List.fold_left]. apply IH; [| |done].
    + destruct ev; cbn [step]; try done.
      unfold onFailure. destruct (json_detail body) as [d|]; [by destruct (template d)|done].
    + destruct ev; cbn [step]; try done.
      unfold onFailure. destruct (json_detail body) as [d|]; [by destruct (template d)|done].
Qed.

Lemma dialogs_open_only_on_clicks_witness :
  AddUserButton
    (run false (mount false ∅)
       [ Keystroke "a"; Search; SubmitSuccess; DismissConfirmation;
         FetchResolved (KString "/api/manage/users/invited") [] ])
  = [].
Proof. apply dialogs_open_only_on_clicks. vm_compute. reflexivity. Defined.

(** The first invitation from end to end, outside a cloud deployment.
    From the idle state with a known, empty invited list: click, Continue
    and a successful submission leave no overlay and the success popup.
    The refetch keeps the stale empty list on display, so a click before
    the response arrives asks for the confirmation again; once a
    non-empty list has arrived, a click opens the modal directly. *)
Theorem first_invite_round_trip (st : State) :
  modal st = false →
  showConfirmation st = false →
  AddUserButton_invitedUsers (cache st) = Some [] →
  let invited := run false st [InviteClick; ConfirmFirstInvite; SubmitSuccess] in
  AddUserButton invited = []
  ∧ popup invited = Some {| message := "Users invited!"; type := success |}
  ∧ KString "/api/manage/users/invited" ∈ issued st invited
  ∧ AddUserButton (step false invited InviteClick) = [ConfirmEntityModal]
  ∧ (∀ u l,
        AddUserButton
          (run false invited
             [FetchResolved (KString "/api/manage/users/invited") (u :: l);
              InviteClick])
        = [BulkAddModal]).
Proof.
  intros Hmodal Hconf Hinvited invited.
  assert (cache st !! KString "/api/manage/users/invited" ≫= data = Some [])
    as Hdata.
  { by rewrite <- (useSWR_data _ (cache st)). }
  assert (invited = onSuccess (setModal true (setShowConfirmation false
                       (setShowConfirmation true st)))) as Hinv.
  { unfold invited. cbn [run List.fold_left step]. unfold handleInviteClick.
    by rewrite Hinvited. }
  clearbody invited.
  assert (cache invited !! KString "/api/manage/users/invited" ≫= data = Some [])
    as Hdata'.
  { rewrite Hinv.
    change (cache (onSuccess ?s)) with (cache (mutate onSuccess_filter s)).
    by rewrite mutate_data. }
  assert (showConfirmation invited = false ∧ modal invited = false) as [Hc Hm].
  { by rewrite Hinv. }
  split; [unfold AddUserButton; by rewrite Hc, Hm|].
  split; [by rewrite Hinv|]. split; [|split].
  - assert (issued st invited = matched_keys onSuccess_filter (cache st)) as ->.
    { apply issued_app. by rewrite Hinv. }
    apply elem_of_matched_keys. split; [|done].
    destruct (cache st !! KString "/api/manage/users/invited"); [by eexists|done].
  - cbn [step]. unfold handleInviteClick, AddUserButton_invitedUsers,
      AddUserButton_invited_key.
    rewrite (useSWR_data _ (cache invited)), Hdata'. cbn.
    unfold AddUserButton. cbn. by rewrite Hm.
  - intros u l. cbn [run List.fold_left step].
    unfold handleInviteClick, AddUserButton_invitedUsers, AddUserButton_invited_key.
    rewrite (useSWR_data _ (cache (fetch_resolved _ _ invited))).
    unfold fetch_resolved at 1. cbn [cache setCache].
    rewrite lookup_alter_eq.
    destruct (cache invited !! KString "/api/manage/users/invited") as [e|];
      [|done].
    cbn. unfold AddUserButton. cbn. by rewrite Hc.
Qed.

Lemma first_invite_round_trip_witness :
  let st :=
    run false (mount false ∅)
      [ FetchResolved (KString "/api/manage/admin/valid-domains") [];
        FetchResolved (KString "/api/manage/users/invited") [] ] in
  AddUserButton (run false st [InviteClick; ConfirmFirstInvite; SubmitSuccess]) = []
  ∧ AddUserButton
      (run false st [InviteClick; ConfirmFirstInvite; SubmitSuccess; InviteClick])
    = [ConfirmEntityModal].
Proof.
  pose (st := run false (mount false ∅)
                [ FetchResolved (KString "/api/manage/admin/valid-domains") [];
                  FetchResolved (KString "/api/manage/users/invited") [] ]).
  destruct (first_invite_round_trip st) as (Hnone & _ & _ & Hagain & _);
    [vm_compute; reflexivity ..|].
  split; [exact Hnone|exact Hagain].
Defined.

(** *** The failure handler at its edges *)

(** An induction principle that reaches the elements of an array. *)
Lemma JSON_array_ind (P : JSON → Prop) :
  P JNull → (∀ b, P (JBool b)) → (∀ n, P (JNumber n)) → (∀ s, P (JString s)) →
  (∀ items, Forall P items → P (JArray items)) →
  (∀ fields, P (JObject fields)) →
  ∀ v, P v.
Proof.
  intros Hnull Hbool Hnum Hstr Harr Hobj. fix IH 1.
  intros [|b|n|s|items|fields];
    [apply Hnull|apply Hbool|apply Hnum|apply Hstr| |apply Hobj].
  apply Harr. induction items as [|x items IHitems]; constructor.
  - apply IH.
  - apply IHitems.
Qed.

Lemma print_elements_throws (print : JSON → Outcome string) (test : JSON → bool)
    (items : list JSON) :
  Forall (fun x => print x = Throws ↔ test x = true) items →
  print_elements print items = Throws ↔ existsb test items = true.
Proof.
  induction 1 as [|x items Hx _ IH]; [done|].
  cbn [print_elements existsb]. fold (print_elements print items).
  rewrite orb_true_iff, <- Hx, <- IH.
  destruct (print x); [|by split; [left|]].
  destruct (print_elements print items); [|by split; [right|]].
  split; [done|]. by intros [|].
Qed.

(** Printing throws exactly on the values [throws_on_print] names. *)
Lemma ToString_throws (v : JSON) :
  ToString v = Throws ↔ throws_on_print v = true.
Proof.
  induction v as [|b|n|s|items IH|fields] using JSON_array_ind; try done.
  - by destruct b.
  - cbn [ToString throws_on_print].
    rewrite <- (print_elements_throws
                  (fun x => match x with JNull => Returns "" | _ => ToString x end)
                  throws_on_print items).
    + by destruct (print_elements _ items).
    + eapply Forall_impl; [exact IH|]. intros x Hx. by destruct x.
  - cbn [ToString throws_on_print].
    destruct (get_field "toString" fields) eqn:Hfield.
    + split; [intros _|done].
      destruct (has_member "toString" fields) eqn:Hmem; [done|].
      apply get_field_None in Hmem. congruence.
    + apply get_field_None in Hfield. rewrite Hfield. done.
Qed.

(** [onFailure] either does nothing at all or sets an error popup that
    starts with "Failed to invite users - ".  It does nothing exactly when
    the body is not JSON, is [null], or is an object whose [detail] cannot
    be printed (an object with a member named [toString], or an array
    holding one): the failure then goes unreported and an earlier popup
    stays. *)
Theorem onFailure_reports_or_does_nothing (body : option JSON) (st : State) :
  if unreportable body
  then onFailure body st = st
  else ∃ shown,
         popup (onFailure body st)
         = Some {| message := "Failed to invite users - " ++ shown;
                   type := error_popup |}.
Proof.
  unfold onFailure, unreportable. destruct body as [v|]; [|done].
  destruct v; cbn [json_detail template]; try by eexists.
  destruct (get_field "detail" fields) as [d|]; cbn [template]; [|by eexists].
  destruct (throws_on_print d) eqn:Hd.
  - apply ToString_throws in Hd. by rewrite Hd.
  - destruct (ToString d) eqn:Hprint; [by eexists|].
    apply ToString_throws in Hprint. congruence.
Qed.

(** A readable body without a [detail] member, be it an object that lacks
    it or a JSON value that is no object, is reported as "Failed to invite
    users - undefined". *)
Theorem onFailure_without_detail (st : State) (v : JSON) :
  v ≠ JNull →
  (∀ fields, v = JObject fields → get_field "detail" fields = None) →
  popup (onFailure (Some v) st)
  = Some {| message := "Failed to invite users - undefined"; type := error_popup |}.
Proof.
  intros Hnull Hfields. unfold onFailure.
  destruct v; cbn [json_detail]; try done.
  by rewrite (Hfields fields eq_refl).
Qed.

Lemma onFailure_without_detail_witness :
  popup (onFailure (Some (JObject [("message", JString "Bad Gateway")]))
           (mount false ∅))
  = Some {| message := "Failed to invite users - undefined"; type := error_popup |}.
Proof.
  apply onFailure_without_detail; [done|].
  intros fields [= <-]. vm_compute. reflexivity.
Defined.

Lemma print_plain_objects (items : list JSON) :
  forallb is_plain_object items = true →
  print_elements (fun x => match x with JNull => Returns "" | _ => ToString x end)
    items
  = Returns (List.map (fun _ => "[object Object]") items).
Proof.
  induction items as [|x items IH]; [done|].
  cbn [forallb]. intros [Hx Hitems]%andb_true_iff.
  cbn [print_elements List.map].
  fold (print_elements
          (fun x => match x with JNull => Returns "" | _ => ToString x end) items).
  rewrite (IH Hitems). destruct x; try done.
  cbn [is_plain_object] in Hx. apply negb_true_iff, get_field_None in Hx.
  cbn [ToString]. by rewrite Hx.
Qed.

(** A [detail] that is an array of objects, none of them with a member
    named [toString] (the shape of a validation error), is reported as
    one "[object Object]" per element, separated by commas: nothing of
    its content reaches the popup. *)
Theorem onFailure_detail_array_of_objects (st : State)
    (pre post : list (string * JSON)) (items : list JSON) :
  has_member "detail" post = false →
  forallb is_plain_object items = true →
  popup (onFailure (Some (JObject (pre ++ ("detail", JArray items) :: post))) st)
  = Some {| message :=
              "Failed to invite users - "
              ++ String.concat "," (List.map (fun _ => "[object Object]") items);
            type := error_popup |}.
Proof.
  intros Hpost Hitems. unfold onFailure. cbn [json_detail].
  rewrite (get_field_last "detail" pre post (JArray items) Hpost).
  cbn [template ToString]. by rewrite (print_plain_objects items Hitems).
Qed.

Lemma onFailure_detail_array_of_objects_witness :
  popup
    (onFailure
       (Some (JObject
                [("status", JNumber "422");
                 ("detail",
                  JArray [ JObject [("msg", JString "value is not a valid email")];
                           JObject [("msg", JString "field required")] ])]))
       (mount false ∅))
  = Some {| message := "Failed to invite users - [object Object],[object Object]";
            type := error_popup |}.
Proof.
  apply (onFailure_detail_array_of_objects (mount false ∅)
           [("status", JNumber "422")] []
           [ JObject [("msg", JString "value is not a valid email")];
             JObject [("msg", JString "field required")] ]);
    vm_compute; reflexivity.
Defined.

(** *** The search cells over a trace *)

Lemma step_query (cloud : bool) (st : State) (ev : Event) :
  query (step cloud st ev)
  = match ev with Keystroke s => s | _ => query st end.
Proof.
  destruct ev; cbn [step]; try done.
  - unfold handleInviteClick. by destruct (InviteFirstTimeGate _ _).
  - unfold onFailure. destruct (json_detail body) as [d|]; [by destruct (template d)|done].
Qed.

Lemma run_query (cloud : bool) (st : State) (evs : list Event) :
  query (run cloud st evs) = default (query st) (last_keystroke evs).
Proof.
  revert st. induction evs as [|ev evs IH]; intros st; [done|].
  cbn [run List.fold_left last_keystroke].
  fold (run cloud (step cloud st ev) evs). rewrite IH, step_query.
  destruct (last_keystroke evs); [done|]. by destruct ev.
Qed.

(** After any trace the draft is what the last keystroke typed, or the
    draft before the trace if nothing was typed: no click, submission,
    search or response alters or clears it, and the search submission
    itself leaves it in the search bar. *)
Theorem draft_is_last_keystroke (cloud : bool) (st : State) (evs : list Event) :
  query (run cloud st evs) = default (query st) (last_keystroke evs)
  ∧ query (run cloud st (evs ++ [Search])) = query (run cloud st evs).
Proof.
  split; [apply run_query|].
  rewrite !run_query. f_equal.
  induction evs as [|ev evs IH]; [done|].
  cbn [app last_keystroke]. rewrite IH.
  destruct (last_keystroke evs); [done|]. by destruct ev.
Qed.

Lemma run_app (cloud : bool) (st : State) (evs evs' : list Event) :
  run cloud st (evs ++ evs') = run cloud (run cloud st evs) evs'.
Proof. apply List.fold_left_app. Qed.

(** The committed query after a trace is the draft as it stood at the
    last search submission: what was typed before it, up to the last
    keystroke, is committed, and what is typed after it is not. *)
Theorem committed_is_draft_at_last_search (cloud : bool) (st : State)
    (before after : list Event) :
  forallb (fun ev => negb (is_Search ev)) after = true →
  q (run cloud st (before ++ Search :: after))
  = default (query st) (last_keystroke before).
Proof.
  intros Hafter. rewrite run_app. cbn [run List.fold_left].
  fold (run cloud (step cloud (run cloud st before) Search) after).
  rewrite (run_q_without_search cloud _ after Hafter), step_q.
  cbn [is_Search]. apply run_query.
Qed.

Lemma committed_is_draft_at_last_search_witness :
  q (run false (mount false ∅)
       ([Keystroke "a"; Keystroke "al"] ++ Search :: [Keystroke "alice"; InviteClick]))
  = "al".
Proof.
  apply (committed_is_draft_at_last_search false (mount false ∅)
           [Keystroke "a"; Keystroke "al"] [Keystroke "alice"; InviteClick]).
  vm_compute. reflexivity.
Defined.

(** *** What the handlers leave alone *)

(** Typing, searching, clicking and failed submissions never reach the
    cache: over any trace of such events every entry is as it was and no
    request is issued.  Only a successful submission and the server's
    responses do. *)
Theorem ui_events_leave_cache (cloud : bool) (st : State) (evs : list Event) :
  forallb (fun ev => negb (is_SubmitSuccess ev || is_fetch_response ev)) evs = true →
  cache (run cloud st evs) = cache st
  ∧ requests (run cloud st evs) = requests st.
Proof.
  revert st. induction evs as [|ev evs IH]; intros st Hevs; [done|].
  cbn [forallb] in Hevs. apply andb_true_iff in Hevs as [Hev Hevs].
  cbn [run List.fold_left]. fold (run cloud (step cloud st ev) evs).
  destruct (IH (step cloud st ev) Hevs) as [-> ->].
  destruct ev; cbn [step]; try done.
  - unfold handleInviteClick. by destruct (InviteFirstTimeGate _ _).
  - unfold onFailure. destruct (json_detail body) as [d|]; [by destruct (template d)|done].
Qed.

Lemma ui_events_leave_cache_witness :
  let st := mount false ∅ in
  let evs :=
    [ Keystroke "bob"; Search; InviteClick; SubmitFailure None;
      ModalOutsideClick ] in
  cache (run false st evs) = cache st
  ∧ requests (run false st evs) = requests st.
Proof. apply ui_events_leave_cache. vm_compute. reflexivity. Defined.

Lemma step_data_kept (cloud : bool) (st : State) (ev : Event) (k : Key) :
  is_Some (cache st !! k ≫= data) →
  is_Some (cache (step cloud st ev) !! k ≫= data).
Proof.
  intros Hk. destruct ev; cbn [step]; try done.
  - unfold handleInviteClick. by destruct (InviteFirstTimeGate _ _).
  - change (cache (onSuccess st)) with (cache (mutate onSuccess_filter st)).
    by rewrite mutate_data.
  - unfold onFailure. destruct (json_detail body) as [d|]; [by destruct (template d)|done].
  - unfold fetch_resolved, setCache. cbn [cache].
    destruct (decide (k0 = k)) as [->|Hne]; [|by rewrite lookup_alter_ne].
    rewrite lookup_alter_eq. destruct (cache st !! k); [by eexists|].
    by destruct Hk.
  - unfold fetch_rejected, setCache. cbn [cache].
    destruct (decide (k0 = k)) as [->|Hne]; [|by rewrite lookup_alter_ne].
    rewrite lookup_alter_eq. by destruct (cache st !! k).
Qed.

Lemma run_data_kept (cloud : bool) (st : State) (evs : list Event) (k : Key) :
  is_Some (cache st !! k ≫= data) →
  is_Some (cache (run cloud st evs) !! k ≫= data).
Proof.
  revert st. induction evs as [|ev evs IH]; intros st Hk; [done|].
  cbn [run List.fold_left]. fold (run cloud (step cloud st ev) evs).
  by apply IH, step_data_kept.
Qed.

Lemma UsersTables_loader_without_data (cloud : bool) (q : string)
    (c : gmap Key Entry) :
  UsersTables cloud q c = ThreeDotsLoader →
  c !! KString "/api/manage/admin/valid-domains" ≫= data = None.
Proof.
  unfold UsersTables, UsersTables_domains_key. cbv zeta.
  rewrite (useSWR_data _ c), (useSWR_error _ c).
  destruct (c !! KString "/api/manage/admin/valid-domains" ≫= data); [|done].
  by destruct (c !! KString "/api/manage/admin/valid-domains" ≫= error).
Qed.

(** Once the loading indicator has given way, it never comes back:
    whatever follows (refetches, failed responses, new data), the page
    shows the tabs or the error panel, since no event clears the data of
    the valid-domains entry. *)
Theorem loader_never_returns (cloud : bool) (st : State) (evs : list Event)
    (q q' : string) :
  UsersTables cloud q (cache st) ≠ ThreeDotsLoader →
  UsersTables cloud q' (cache (run cloud st evs)) ≠ ThreeDotsLoader.
Proof.
  intros Hshown Hloader.
  assert (is_Some (cache st !! KString "/api/manage/admin/valid-domains" ≫= data))
    as Hdata.
  { destruct (cache st !! KString "/api/manage/admin/valid-domains" ≫= data)
      eqn:Hd; [by eexists|].
    destruct Hshown. by apply UsersTables_domains_without_data. }
  apply (run_data_kept cloud st evs) in Hdata as [d Hd].
  apply UsersTables_loader_without_data in Hloader. congruence.
Qed.

Lemma loader_never_returns_witness :
  let st :=
    run false (mount false ∅)
      [FetchResolved (KString "/api/manage/admin/valid-domains") []] in
  UsersTables false "q"
    (cache (run false st
              [ SubmitSuccess;
                FetchRejected (KString "/api/manage/admin/valid-domains")
                  {| info := None |} ]))
  ≠ ThreeDotsLoader.
Proof.
  apply (loader_never_returns false _ _ "").
  vm_compute. discriminate.
Defined.
